(** * whisplay_im_channel: a shallow embedding of the Whisplay IM bridge client

  Source: [src/whisplay-im/whisplay_im_channel.py].

  The file has three layers.
  - [Py]: the Python values and built-ins the client uses ([str.strip],
    [str.rstrip], [str.startswith], truthiness, [dict], [json.dumps]).
  - [Requests]: the part of the [requests] library the client calls
    ([Session.get], [Session.post], [Response.raise_for_status],
    [Response.text], [Response.json]).
  - [WhisplayIMConfig] and [WhisplayIMChannel]: the two classes of the source,
    definition by definition.
  The command-line entry point ([_build_parser], [main]) only parses its
  arguments and prints the result of one call; it is not modelled.
  The theorems follow the definitions. *)

From Stdlib Require Import List NArith ZArith Bool String Ascii Lia.
From Stdlib Require Import Floats.SpecFloat.
Import ListNotations.

Set Implicit Arguments.

(* ===================================================================== *)
(** ** Python values and built-ins *)
(* ===================================================================== *)

Module Py.

Local Open Scope N_scope.

(** A Python [str] is a sequence of Unicode code points. *)
Definition char := N.
Definition str := list char.

(** An ASCII literal of the source as a [str]. *)
Definition lit (s : string) : str := map N_of_ascii (list_ascii_of_string s).

Fixpoint str_eqb (a b : str) : bool :=
  match a, b with
  | [], [] => true
  | x :: a', y :: b' => N.eqb x y && str_eqb a' b'
  | _, _ => false
  end.

(** [bool(s)] for a string: non-empty. *)
Definition str_truthy (s : str) : bool :=
  match s with [] => false | _ :: _ => true end.

(** [str.isspace] on one code point, the set [str.strip()] removes:
    the ASCII whitespace table (TAB..CR, FS..US, SPACE) and the Unicode
    characters of bidirectional type WS, B or S. *)
Definition isspace (c : char) : bool :=
  ((0x09 <=? c) && (c <=? 0x0D)) || ((0x1C <=? c) && (c <=? 0x20))
  || (c =? 0x85) || (c =? 0xA0) || (c =? 0x1680)
  || ((0x2000 <=? c) && (c <=? 0x200A))
  || (c =? 0x2028) || (c =? 0x2029) || (c =? 0x202F) || (c =? 0x205F)
  || (c =? 0x3000).

(** Membership of a code point in the character set given to [rstrip]. *)
Definition in_chars (chars : str) (c : char) : bool := existsb (N.eqb c) chars.

(** Drop the leading characters that satisfy [f]. *)
Fixpoint lstrip_with (f : char -> bool) (s : str) : str :=
  match s with
  | [] => []
  | c :: s' => if f c then lstrip_with f s' else s
  end.

(** Drop the trailing characters that satisfy [f]. *)
Fixpoint rstrip_with (f : char -> bool) (s : str) : str :=
  match s with
  | [] => []
  | c :: s' =>
      match rstrip_with f s' with
      | [] => if f c then [] else [c]
      | r => c :: r
      end
  end.

(** [s.strip()] *)
Definition strip (s : str) : str := rstrip_with isspace (lstrip_with isspace s).

(** [s.rstrip(chars)] *)
Definition rstrip (s chars : str) : str := rstrip_with (in_chars chars) s.

(** [s.startswith(prefix)] *)
Fixpoint startswith (s prefix : str) {struct prefix} : bool :=
  match prefix, s with
  | [], _ => true
  | _ :: _, [] => false
  | p :: prefix', c :: s' => N.eqb c p && startswith s' prefix'
  end.

(** [s.endswith(suffix)] *)
Definition endswith (s suffix : str) : bool := startswith (rev s) (rev suffix).

(** A Python [dict] with [str] keys. Dictionaries keep insertion order, and
    [json.dumps] writes the items in that order, so a dictionary is the
    ordered list of its items; [dict_setitem] keeps the keys distinct. *)
Definition dict (V : Type) := list (str * V).

Fixpoint dict_lookup V (d : dict V) (k : str) : option V :=
  match d with
  | [] => None
  | (k', v) :: d' => if str_eqb k' k then Some v else dict_lookup d' k
  end.

(** [d[k] = v] *)
Fixpoint dict_setitem V (d : dict V) (k : str) (v : V) : dict V :=
  match d with
  | [] => [(k, v)]
  | (k', v') :: d' =>
      if str_eqb k' k then (k', v) :: d' else (k', v') :: dict_setitem d' k v
  end.

(** The values [json.loads] produces, which are also the values [poll]
    returns: [None], [bool], [int], [float], [str], [list] and [dict]. *)
#[warnings="-register-all"] Inductive value : Type :=
| VNone
| VBool (b : bool)
| VInt (z : Z)
| VFloat (f : spec_float)
| VStr (s : str)
| VList (l : list value)
| VDict (d : dict value).

(** [bool(v)] *)
Definition truthy (v : value) : bool :=
  match v with
  | VNone => false
  | VBool b => b
  | VInt z => negb (Z.eqb z 0%Z)
  | VFloat (S754_zero _) => false
  | VFloat _ => true
  | VStr s => str_truthy s
  | VList [] => false
  | VList (_ :: _) => true
  | VDict [] => false
  | VDict (_ :: _) => true
  end.

(** [bool(d)] for a dictionary. *)
Definition dict_truthy V (d : dict V) : bool :=
  match d with [] => false | _ :: _ => true end.

(** [isinstance(v, list)] and [isinstance(v, dict)] *)
Definition isinstance_list (v : value) : bool :=
  match v with VList _ => true | _ => false end.
Definition isinstance_dict (v : value) : bool :=
  match v with VDict _ => true | _ => false end.

(** [d.get(k)]: the value under [k], or [None]. *)
Definition dict_get (d : dict value) (k : str) : value :=
  match dict_lookup d k with Some v => v | None => VNone end.

(** *** [json.dumps] on the objects [send] builds

    [send] serialises a dictionary from [str] to [str] with the default
    separators. A string is written between double quotes; inside it
    [json.encoder] replaces the backslash, the double quote and the control
    characters below U+0020, and, with [ensure_ascii=True] only, every
    character outside the printable ASCII range. *)

Definition hex_digit (n : N) : char :=
if n <? 10 then 0x30 + n else 0x61 + (n - 10).

(** ['\\u{0:04x}'.format(n)] for [n < 0x10000]. *)
Definition u_escape (n : N) : str :=
[0x5C; 0x75; hex_digit (n / 0x1000 mod 16); hex_digit (n / 0x100 mod 16);
 hex_digit (n / 0x10 mod 16); hex_digit (n mod 16)].

(** The named escapes of [ESCAPE_DCT]. *)
Definition escape_named (c : char) : option str :=
if c =? 0x5C then Some [0x5C; 0x5C]
else if c =? 0x22 then Some [0x5C; 0x22]
else if c =? 0x08 then Some (lit "\b")
else if c =? 0x0C then Some (lit "\f")
else if c =? 0x0A then Some (lit "\n")
else if c =? 0x0D then Some (lit "\r")
else if c =? 0x09 then Some (lit "\t")
else None.

(** One character under [py_encode_basestring] ([ensure_ascii=False]). *)
Definition escape_char (c : char) : str :=
match escape_named c with
| Some e => e
| None => if c <? 0x20 then u_escape c else [c]
end.

(** One character under [py_encode_basestring_ascii] ([ensure_ascii=True]):
    a character above U+FFFF is written as a surrogate pair. *)
Definition escape_char_ascii (c : char) : str :=
match escape_named c with
| Some e => e
| None =>
    if (0x20 <=? c) && (c <=? 0x7E) then [c]
    else if c <? 0x10000 then u_escape c
    else
      let n := c - 0x10000 in
      u_escape (N.lor 0xD800 (N.land (N.shiftr n 10) 0x3FF))
      ++ u_escape (N.lor 0xDC00 (N.land n 0x3FF))
end.

Definition encode_basestring (ensure_ascii : bool) (s : str) : str :=
[0x22] ++ flat_map (if ensure_ascii then escape_char_ascii else escape_char) s
++ [0x22].

(** [", ".join(items)] *)
Fixpoint join_items (items : list str) : str :=
match items with
| [] => []
| [x] => x
| x :: rest => x ++ lit ", " ++ join_items rest
end.

(** [json.dumps(obj, ensure_ascii=...)] for a dictionary of strings. *)
Definition json_dumps (obj : dict str) (ensure_ascii : bool) : str :=
lit "{"
++ join_items
     (map (fun kv => encode_basestring ensure_ascii (fst kv) ++ lit ": "
                     ++ encode_basestring ensure_ascii (snd kv)) obj)
++ lit "}".

End Py.

Import Py.

(* ===================================================================== *)
(** ** WhisplayIMConfig *)
(* ===================================================================== *)

Module WhisplayIMConfig.

Record t : Type := mk {
  ip : str;
  token : option str;
  wait_sec : Z;
  timeout_sec : Z
}.

(** The dataclass defaults: [token=None], [wait_sec=30], [timeout_sec=35]. *)
Definition default (ip : str) : t :=
  {| ip := ip; token := None; wait_sec := 30%Z; timeout_sec := 35%Z |}.

(** [base_url] (lines 16-21). *)
Definition base_url (self : t) : str :=
  let ip := strip (ip self) in
  if startswith ip (lit "http://") || startswith ip (lit "https://") then
    rstrip ip (lit "/")
  else
    lit "http://" ++ rstrip ip (lit "/").

End WhisplayIMConfig.

(* ===================================================================== *)
(** ** The [requests] library, as far as the client uses it *)
(* ===================================================================== *)

Module Requests.

Inductive http_method : Type := GET | POST.

(** What the client hands to [Session.get] and [Session.post]. *)
Record Request : Type := mkRequest {
  method : http_method;
  url : str;
  params : dict Z;
  headers : dict str;
  data : option str;
  timeout : Z
}.

(** What [Response.json()] does on a body: it returns the decoded value; or
    the body is not JSON and it raises [JSONDecodeError], a [ValueError]; or
    the body nests arrays or objects deeper than the interpreter's recursion
    limit and the decoder raises [RecursionError], which is not a
    [ValueError]. *)
Inductive json_outcome : Type :=
| Decoded (v : value)
| NotJSON
| TooDeep.

(** A received response: its status code, its body as text, and what
    [Response.json()] does on it. *)
Record Response : Type := mkResponse {
  status_code : Z;
  text : str;
  outcome : json_outcome
}.

(** The value the body decodes to, when it does. *)
Definition decoded (response : Response) : option value :=
match outcome response with
| Decoded v => Some v
| NotJSON => None
| TooDeep => None
end.

(** The ways a call of the session can end without a response: the
    connection fails, no answer comes in time, or the library refuses the
    request before it uses the network ([InvalidURL] for a URL without a
    host, [UnicodeEncodeError] for a body that cannot be encoded). *)
Inductive failure : Type :=
| ConnectionFailed
| TimedOut
| InvalidURL
| BodyNotEncodable.

(** The exceptions that occur in the client. [HTTPError] carries the response
    it was raised for, as [requests.HTTPError.response] does;
    [RequestException f] is the exception a call of the session ended
    with. *)
Inductive exn : Type :=
| ValueError
| RecursionError
| IndexError
| KeyError
| TypeError
| HTTPError (response : Response)
| RequestException (f : failure).

Inductive result (A : Type) : Type :=
| Return (a : A)
| Raise (e : exn).
Arguments Raise {A} e.

Definition result_bind A B (r : result A) (k : A -> result B) : result B :=
match r with
| Return a => k a
| Raise e => Raise e
end.

(** [try: body except ValueError: handler] *)
Definition try_except_ValueError A (body handler : result A) : result A :=
match body with
| Raise ValueError => handler
| _ => body
end.

(** [response.json()] *)
Definition json (response : Response) : result value :=
match outcome response with
| Decoded v => Return v
| NotJSON => Raise ValueError
| TooDeep => Raise RecursionError
end.

(** [response.raise_for_status()]: [requests] raises [HTTPError] for a client
    error (4xx) or a server error (5xx) and returns [None] otherwise. *)
Definition raise_for_status (response : Response) : result unit :=
let status := status_code response in
if ((400 <=? status) && (status <? 500))%Z then Raise (HTTPError response)
else if ((500 <=? status) && (status <? 600))%Z then Raise (HTTPError response)
else Return tt.

(** A session: the requests handed to it so far, and the network it talks
    to. A call of the session ends, given the calls before it, with a
    response or with a failure; which one is arbitrary. *)
Record Session : Type := mkSession {
  sent : list Request;
  network : list Request -> Request -> failure + Response
}.

(** [requests.Session()] *)
Definition new_session (network : list Request -> Request -> failure + Response)
  : Session :=
{| sent := []; network := network |}.

(** Send one request over the session. *)
Definition request (s : Session) (req : Request) : result Response * Session :=
(match network s (sent s) req with
 | inl f => Raise (RequestException f)
 | inr response => Return response
 end,
 {| sent := sent s ++ [req]; network := network s |}).

(** [session.get(url, params=..., headers=..., timeout=...)] *)
Definition get (s : Session) (url : str) (params : dict Z) (headers : dict str)
  (timeout : Z) : result Response * Session :=
request s {| method := GET; url := url; params := params; headers := headers;
             data := None; timeout := timeout |}.

(** [session.post(url, headers=..., data=..., timeout=...)] *)
Definition post (s : Session) (url : str) (headers : dict str) (data : str)
  (timeout : Z) : result Response * Session :=
request s {| method := POST; url := url; params := []; headers := headers;
             data := Some data; timeout := timeout |}.

End Requests.

Import Requests.

(** [seq[-1]]: the last element of a list, the last character of a string;
    an empty sequence raises [IndexError]. *)
Definition getitem_last (v : value) : result value :=
match v with
| VList l => match rev l with x :: _ => Return x | [] => Raise IndexError end
| VStr s => match rev s with c :: _ => Return (VStr [c]) | [] => Raise IndexError end
| VDict _ => Raise KeyError
| _ => Raise TypeError
end.

(* ===================================================================== *)
(** ** WhisplayIMChannel *)
(* ===================================================================== *)

Module WhisplayIMChannel.

(** The client object: its configuration and its session. ([__init__] also
    keeps the imported [requests] module, which no method reads.) *)
Record t : Type := mk {
  config : WhisplayIMConfig.t;
  session : Session
}.

(** [__init__] (lines 25-33), once [requests] is importable. *)
Definition init (config : WhisplayIMConfig.t)
  (network : list Request -> Request -> failure + Response) : t :=
{| config := config; session := new_session network |}.

(** A method that may raise and may change the client object. *)
Definition M (A : Type) : Type := t -> result A * t.

Definition ret A (a : A) : M A := fun self => (Return a, self).

Definition bind A B (m : M A) (k : A -> M B) : M B :=
fun self =>
  match m self with
  | (Return a, self') => k a self'
  | (Raise e, self') => (Raise e, self')
  end.

Definition lift A (r : result A) : M A := fun self => (r, self).

(** [self] *)
Definition this : M t := fun self => (Return self, self).

(** [self.session.get(...)]: the call changes the session object and nothing
    else of the client. *)
Definition session_get (url : str) (params : dict Z) (headers : dict str)
  (timeout : Z) : M Response :=
fun self =>
  let (r, s') := Requests.get (session self) url params headers timeout in
  (r, {| config := config self; session := s' |}).

(** [self.session.post(...)] *)
Definition session_post (url : str) (headers : dict str) (data : str)
  (timeout : Z) : M Response :=
fun self =>
  let (r, s') := Requests.post (session self) url headers data timeout in
  (r, {| config := config self; session := s' |}).

Declare Scope chan_scope.
Delimit Scope chan_scope with chan.
Notation "x <- m ;; k" := (bind m (fun x => k))
  (at level 61, m at next level, right associativity) : chan_scope.
Notation "m ;;; k" := (bind m (fun _ => k))
  (at level 61, right associativity) : chan_scope.
Local Open Scope chan_scope.

(** [_headers] (lines 35-40). *)
Definition _headers (self : t) : dict str :=
let headers := [(lit "Content-Type", lit "application/json")] in
let token :=
  strip (match WhisplayIMConfig.token (config self) with
         | Some t => if str_truthy t then t else []
         | None => []
         end) in
if str_truthy token then
  dict_setitem headers (lit "Authorization") (lit "Bearer " ++ token)
else headers.

(** [_safe_json] (lines 86-96). *)
Definition _safe_json (response : Response) : result (dict value) :=
if negb (str_truthy (strip (text response))) then Return []
else
  try_except_ValueError
    (result_bind (json response) (fun data =>
       match data with
       | VDict d => Return d
       | _ => Return [(lit "data", data)]
       end))
    (Return [(lit "text", VStr (text response))]).

(** [poll] (lines 42-70). *)
Definition poll (wait_sec : option Z) : M (option (dict value)) :=
self <- this ;;
let wait :=
  match wait_sec with
  | None => WhisplayIMConfig.wait_sec (config self)
  | Some w => w
  end in
response <- session_get
  (WhisplayIMConfig.base_url (config self) ++ lit "/whisplay-im/poll")
  [(lit "waitSec", wait)]
  (_headers self)
  (WhisplayIMConfig.timeout_sec (config self)) ;;
lift (raise_for_status response) ;;;
payload <- lift (_safe_json response) ;;
if negb (dict_truthy payload) then ret None
else
  let message := dict_get payload (lit "message") in
  let messages := dict_get payload (lit "messages") in
  message <-
    (if negb (truthy message) && truthy messages && isinstance_list messages
     then
       latest <- lift (getitem_last messages) ;;
       match latest with
       | VDict d => ret (dict_get d (lit "content"))
       | _ => ret message
       end
     else ret message) ;;
  if negb (truthy message) then ret None
  else
    ret (Some [(lit "text", message);
               (lit "messages", messages);
               (lit "raw", VDict payload)]).

(** [send] (lines 72-84). *)
Definition send (reply : str) (emoji : option str) : M (dict value) :=
self <- this ;;
let body := [(lit "reply", reply)] in
let body :=
  match emoji with
  | Some e => if str_truthy e then dict_setitem body (lit "emoji") e else body
  | None => body
  end in
response <- session_post
  (WhisplayIMConfig.base_url (config self) ++ lit "/whisplay-im/send")
  (_headers self)
  (json_dumps body false)
  (WhisplayIMConfig.timeout_sec (config self)) ;;
lift (raise_for_status response) ;;;
lift (_safe_json response).

End WhisplayIMChannel.

Import WhisplayIMChannel.

(* ===================================================================== *)
(** ** Vocabulary of the statements *)
(* ===================================================================== *)

(** The address carries one of the two schemes the source tests for. *)
Definition has_scheme (s : str) : bool :=
startswith s (lit "http://") || startswith s (lit "https://").

(** Every character of [s] is a slash (in particular, [s] may be empty). *)
Definition all_slashes (s : str) : bool := forallb (in_chars (lit "/")) s.

(** A trimmed address with no host part: nothing but slashes, or a scheme
    prefix followed by nothing but slashes. *)
Definition no_host (s : str) : bool :=
all_slashes s
|| (startswith s (lit "http://") && all_slashes (skipn 7 s))
|| (startswith s (lit "https://") && all_slashes (skipn 8 s)).

(** The shape of a base URL whose host part is not empty. *)
Definition well_formed_url (url : str) : Prop :=
has_scheme url = true /\ endswith url (lit "/") = false.

(** A configuration that differs from the defaults in its address only. *)
Definition config_of (address : string) : WhisplayIMConfig.t :=
WhisplayIMConfig.default (lit address).

(** A network that answers every request with the same response. *)
Definition always (r : Response) : list Request -> Request -> failure + Response :=
fun _ _ => inr r.

(** A fresh client of the bridge at [10.0.0.5:8080], which answers [r]. *)
Definition client_of (r : Response) : WhisplayIMChannel.t :=
init (config_of "10.0.0.5:8080") (always r).

(** What the network answers when the client sends [req] now. *)
Definition answer (self : WhisplayIMChannel.t) (req : Request)
  : failure + Response :=
network (session self) (sent (session self)) req.

(** The request [poll] sends. *)
Definition poll_request (self : WhisplayIMChannel.t) (wait_sec : option Z)
  : Request :=
{| method := GET;
   url := WhisplayIMConfig.base_url (config self) ++ lit "/whisplay-im/poll";
   params := [(lit "waitSec",
               match wait_sec with
               | None => WhisplayIMConfig.wait_sec (config self)
               | Some w => w
               end)];
   headers := _headers self;
   data := None;
   timeout := WhisplayIMConfig.timeout_sec (config self) |}.

(** The body mapping of a reply: the reply, and the emoji when there is one
    and it is not empty. *)
Definition reply_body (reply : str) (emoji : option str) : dict str :=
(lit "reply", reply)
:: match emoji with
   | Some e => if str_truthy e then [(lit "emoji", e)] else []
   | None => []
   end.

(** The request [send] sends. *)
Definition send_request (self : WhisplayIMChannel.t) (reply : str)
  (emoji : option str) : Request :=
{| method := POST;
   url := WhisplayIMConfig.base_url (config self) ++ lit "/whisplay-im/send";
   params := [];
   headers := _headers self;
   data := Some (json_dumps (reply_body reply emoji) false);
   timeout := WhisplayIMConfig.timeout_sec (config self) |}.

(** The client after it has sent [req]: one more request on its session. *)
Definition after_sending (self : WhisplayIMChannel.t) (req : Request)
  : WhisplayIMChannel.t :=
{| config := config self;
   session := {| sent := sent (session self) ++ [req];
                 network := network (session self) |} |}.

(** [poll] receives the 2xx response [r], whose JSON-safe reading is
    [payload]. *)
Definition poll_receives (self : WhisplayIMChannel.t) (wait_sec : option Z)
  (r : Response) (payload : dict value) : Prop :=
answer self (poll_request self wait_sec) = inr r
/\ (200 <= status_code r < 300)%Z
/\ _safe_json r = Return payload.

(** The structured result of [poll] for the message [text]. *)
Definition poll_result (text : value) (payload : dict value) : dict value :=
[(lit "text", text);
 (lit "messages", dict_get payload (lit "messages"));
 (lit "raw", VDict payload)].

(** The [content] of the last element of [messages], when [messages] is a
    non-empty list whose last element is a mapping; [None] otherwise. *)
Definition latest_content (payload : dict value) : value :=
match dict_get payload (lit "messages") with
| VList l =>
    match rev l with
    | VDict d :: _ => dict_get d (lit "content")
    | _ => VNone
    end
| _ => VNone
end.

(** The message of a payload: its [message] when that is truthy, else the
    latest content; the result of [poll] is built on it when it is truthy. *)
Definition extract (payload : dict value) : option (dict value) :=
match payload with
| [] => None
| _ :: _ =>
    let message := dict_get payload (lit "message") in
    let text := if truthy message then message else latest_content payload in
    if truthy text then Some (poll_result text payload) else None
end.

(** The headers of a request in the words of the specification:
    [Content-Type], and [Authorization] when the trimmed token is not
    empty. *)
Definition expected_headers (cfg : WhisplayIMConfig.t) : dict str :=
let token :=
  strip (match WhisplayIMConfig.token cfg with Some t => t | None => [] end) in
(lit "Content-Type", lit "application/json")
:: match token with
   | [] => []
   | _ :: _ => [(lit "Authorization", lit "Bearer " ++ token)]
   end.

(** A double quote, and a string between double quotes. *)
Definition quoted (s : str) : str := [0x22%N] ++ s ++ [0x22%N].

(** A method leaves the client object as it found it. *)
Definition untouched A (m : M A) : Prop := forall self, snd (m self) = self.

(** The calls a user of the client can make, and the client after a
    sequence of them (an exception ends a call, not the client). *)
Inductive call : Type :=
| Poll (wait_sec : option Z)
| Send (reply : str) (emoji : option str).

Definition perform (self : WhisplayIMChannel.t) (c : call) : WhisplayIMChannel.t :=
match c with
| Poll wait_sec => snd (poll wait_sec self)
| Send reply emoji => snd (send reply emoji self)
end.

Definition run (calls : list call) (self : WhisplayIMChannel.t)
  : WhisplayIMChannel.t :=
fold_left perform calls self.

(** *** Responses used as examples *)

(** A response with status [status] and body [body], which decodes to
    [decoded], or is not JSON when there is no such value. *)
Definition response_of (status : Z) (body : str) (decoded : option value)
  : Response :=
{| status_code := status; text := body;
   outcome := match decoded with Some v => Decoded v | None => NotJSON end |}.

(** A 200 answer whose body opens two thousand arrays, one in the other:
    well-formed JSON that the decoder gives up on. *)
Definition deep_response : Response :=
{| status_code := 200;
   text := repeat 0x5B%N 2000 ++ repeat 0x5D%N 2000;
   outcome := TooDeep |}.

(** [{"message": "hi"}] *)
Definition hi_payload : dict value := [(lit "message", VStr (lit "hi"))].
Definition hi_body : str :=
lit "{" ++ quoted (lit "message") ++ lit ": " ++ quoted (lit "hi") ++ lit "}".

(** [{"messages": [{"content": "a"}, {"content": "b"}]}] *)
Definition two_messages_payload : dict value :=
[(lit "messages",
  VList [VDict [(lit "content", VStr (lit "a"))];
         VDict [(lit "content", VStr (lit "b"))]])].
Definition two_messages_body : str :=
lit "{" ++ quoted (lit "messages") ++ lit ": [{" ++ quoted (lit "content")
++ lit ": " ++ quoted (lit "a") ++ lit "}, {" ++ quoted (lit "content")
++ lit ": " ++ quoted (lit "b") ++ lit "}]}".

(** [{"message": E, "messages": [{"content": "b"}]}], with [E] the empty
    string. *)
Definition empty_message_payload : dict value :=
[(lit "message", VStr []);
 (lit "messages", VList [VDict [(lit "content", VStr (lit "b"))]])].
Definition empty_message_body : str :=
lit "{" ++ quoted (lit "message") ++ lit ": " ++ quoted [] ++ lit ", "
++ quoted (lit "messages") ++ lit ": [{" ++ quoted (lit "content")
++ lit ": " ++ quoted (lit "b") ++ lit "}]}".

(** [{"message": E}], with [E] the empty string. *)
Definition blank_message_payload : dict value := [(lit "message", VStr [])].
Definition blank_message_body : str :=
lit "{" ++ quoted (lit "message") ++ lit ": " ++ quoted [] ++ lit "}".

(** A 304 answer, which has no body, and a 300 answer with a message. *)
Definition not_modified : Response := response_of 304 [] None.
Definition multiple_choices : Response :=
response_of 300 hi_body (Some (VDict hi_payload)).

(** A 500 answer with an explanation as its body. *)
Definition server_error : Response := response_of 500 (lit "bridge down") None.

(** The thumbs-up emoji, U+1F44D. *)
Definition thumbs_up : str := [0x1F44D%N].

(** *** Reading a JSON text back

    The yardstick for the text [send] posts: a reader for the JSON texts
    (RFC 8259) of objects whose members are strings. It is not part of the
    source. It accepts a text only when the text is JSON of that shape, and
    then gives the mapping the text denotes; an escape [\uXXXX] in the
    surrogate range is not accepted, so what it accepts has one meaning. *)

Inductive token : Type :=
| TBegin
| TEnd
| TColon
| TComma
| TString (s : str).












(** *** Vocabulary of the further properties *)

(** The request a call sends. *)
Definition call_request (self : WhisplayIMChannel.t) (c : call) : Request :=
match c with
| Poll wait_sec => poll_request self wait_sec
| Send reply emoji => send_request self reply emoji
end.

(** A network on which every request fails with [f]. *)
Definition failing (f : failure) : list Request -> Request -> failure + Response :=
fun _ _ => inl f.

(** The configuration [cfg] with another address. *)
Definition with_ip (cfg : WhisplayIMConfig.t) (ip : str) : WhisplayIMConfig.t :=
WhisplayIMConfig.mk ip (WhisplayIMConfig.token cfg)
  (WhisplayIMConfig.wait_sec cfg) (WhisplayIMConfig.timeout_sec cfg).

(** [{"messages": "content"}]: a [messages] field that is a string. *)
Definition odd_messages_body : str :=
lit "{" ++ quoted (lit "messages") ++ lit ": " ++ quoted (lit "content")
++ lit "}".

(** A character that is not a control character. *)
Definition printable (c : char) : bool := (0x20 <=? c)%N.

(* ===================================================================== *)
(** ** Strings: stripping and prefixes *)
(* ===================================================================== *)

Section Stripping.

Variable f : char -> bool.

Lemma rstrip_with_app (a b : str) :
  rstrip_with f (a ++ b) =
  match rstrip_with f b with
  | [] => rstrip_with f a
  | r => a ++ r
  end.
Proof.
  induction a as [|x a IH]; simpl.
  - destruct (rstrip_with f b); reflexivity.
  - rewrite IH. destruct (rstrip_with f b) as [|y r]; [reflexivity|].
    destruct a; reflexivity.
Qed.

(** Stripping on the right is the backward scan of the interpreter: look at
    the last character, drop it when it is in the set, and go on. *)
Lemma rstrip_with_snoc (s : str) (c : char) :
  rstrip_with f (s ++ [c]) = if f c then rstrip_with f s else s ++ [c].
Proof.
  rewrite rstrip_with_app. simpl. destruct (f c); reflexivity.
Qed.

Lemma rstrip_with_nil_iff (s : str) :
  rstrip_with f s = [] <-> forallb f s = true.
Proof.
  induction s as [|c s IH]; simpl; [tauto|].
  destruct (rstrip_with f s) as [|y r].
  - destruct (f c); simpl.
    + split; intros _; [apply IH|]; reflexivity.
    + split; discriminate.
  - split; [discriminate|]. intros H. apply andb_true_iff in H.
    destruct H as [_ H]. apply IH in H. discriminate.
Qed.

Lemma rstrip_with_cases (s : str) :
  rstrip_with f s = [] \/
  exists r c, rstrip_with f s = r ++ [c] /\ f c = false.
Proof.
  induction s as [|c s IH] using rev_ind; [left; reflexivity|].
  rewrite rstrip_with_snoc. destruct (f c) eqn:E; [exact IH|].
  right. exists s, c. split; [reflexivity|exact E].
Qed.

Lemma rstrip_with_keeps (r : str) (c : char) :
  f c = false -> rstrip_with f (r ++ [c]) = r ++ [c].
Proof. intros H. rewrite rstrip_with_snoc, H. reflexivity. Qed.

Lemma rstrip_with_idempotent (s : str) :
  rstrip_with f (rstrip_with f s) = rstrip_with f s.
Proof.
  destruct (rstrip_with_cases s) as [E | (r & c & E & Hc)]; rewrite E.
  - reflexivity.
  - apply rstrip_with_keeps, Hc.
Qed.

Lemma lstrip_with_head (s : str) :
  lstrip_with f s = [] \/
  exists c r, lstrip_with f s = c :: r /\ f c = false.
Proof.
  induction s as [|c s IH]; simpl; [left; reflexivity|].
  destruct (f c) eqn:E; [exact IH|].
  right. exists c, s. split; [reflexivity|exact E].
Qed.

Lemma lstrip_with_keeps (c : char) (r : str) :
  f c = false -> lstrip_with f (c :: r) = c :: r.
Proof. intros H. simpl. rewrite H. reflexivity. Qed.

Lemma rstrip_with_cons_keeps (c : char) (r : str) :
  f c = false -> exists r', rstrip_with f (c :: r) = c :: r'.
Proof.
  intros H. simpl. destruct (rstrip_with f r) as [|y r'].
  - rewrite H. exists []. reflexivity.
  - exists (y :: r'). reflexivity.
Qed.

Lemma strip_with_idempotent (s : str) :
  rstrip_with f (lstrip_with f (rstrip_with f (lstrip_with f s))) =
  rstrip_with f (lstrip_with f s).
Proof.
  destruct (lstrip_with_head s) as [E | (c & r & E & Hc)]; rewrite E.
  - reflexivity.
  - destruct (rstrip_with_cons_keeps r Hc) as (r' & E').
    rewrite E', (lstrip_with_keeps r' Hc), <- E'.
    apply rstrip_with_idempotent.
Qed.

End Stripping.

Lemma strip_idempotent (s : str) : strip (strip s) = strip s.
Proof. apply strip_with_idempotent. Qed.

Lemma startswith_skipn (p s : str) :
  startswith s p = true -> s = p ++ skipn (List.length p) s.
Proof.
  revert s. induction p as [|c p IH]; intros s H; [reflexivity|].
  destruct s as [|x s]; simpl in H; [discriminate|].
  apply andb_true_iff in H. destruct H as [Hx H].
  apply N.eqb_eq in Hx. subst x. simpl. f_equal. apply IH, H.
Qed.

Lemma endswith_snoc (s : str) (x c : char) :
  endswith (s ++ [x]) [c] = N.eqb x c.
Proof.
  unfold endswith. rewrite rev_app_distr. simpl.
  destruct (rev s); apply andb_true_r.
Qed.

Lemma in_slash (c : char) : in_chars (lit "/") c = N.eqb c 0x2F.
Proof. unfold in_chars. simpl. apply orb_false_r. Qed.

Lemma rstrip_no_trailing_slash (s : str) :
  endswith s (lit "/") = false -> rstrip s (lit "/") = s.
Proof.
  destruct s as [|c s] using rev_ind; [reflexivity|]. intros H.
  change (lit "/") with [0x2F%N] in H. rewrite endswith_snoc in H.
  apply rstrip_with_keeps. rewrite in_slash. exact H.
Qed.

Lemma endswith_app_snoc (p r : str) (c x : char) :
  endswith (p ++ r ++ [x]) [c] = endswith (r ++ [x]) [c].
Proof. rewrite app_assoc, !endswith_snoc. reflexivity. Qed.

Lemma rstrip_with_app_keep (f : char -> bool) (a b r : str) (c : char) :
  rstrip_with f b = r ++ [c] -> rstrip_with f (a ++ b) = a ++ r ++ [c].
Proof.
  intros E. rewrite rstrip_with_app, E. destruct r; reflexivity.
Qed.

Lemma rstrip_with_app_nil (f : char -> bool) (a b : str) :
  forallb f b = true -> rstrip_with f (a ++ b) = rstrip_with f a.
Proof.
  intros H. apply rstrip_with_nil_iff in H. rewrite rstrip_with_app, H.
  reflexivity.
Qed.

Lemma rstrip_with_some (f : char -> bool) (s : str) :
  forallb f s = false ->
  exists r c, rstrip_with f s = r ++ [c] /\ f c = false.
Proof.
  intros H. destruct (rstrip_with_cases f s) as [E | E]; [|exact E].
  apply rstrip_with_nil_iff in E. congruence.
Qed.

Lemma url_with_host (p r : str) (c : char) :
  has_scheme (p ++ r ++ [c]) = true ->
  in_chars (lit "/") c = false ->
  well_formed_url (p ++ r ++ [c]).
Proof.
  intros Hs Hc. split; [exact Hs|].
  change (lit "/") with [0x2F%N]. rewrite endswith_app_snoc, endswith_snoc.
  rewrite in_slash in Hc. exact Hc.
Qed.

Lemma no_host_http (rest : str) :
  no_host (lit "http://" ++ rest) = all_slashes rest.
Proof. unfold no_host. simpl. apply orb_false_r. Qed.

Lemma no_host_https (rest : str) :
  no_host (lit "https://" ++ rest) = all_slashes rest.
Proof. unfold no_host. reflexivity. Qed.

Lemma no_host_bare (t : str) : has_scheme t = false -> no_host t = all_slashes t.
Proof.
  unfold has_scheme, no_host. intros H. apply orb_false_iff in H.
  destruct H as [H1 H2]. rewrite H1, H2. simpl. rewrite !orb_false_r.
  reflexivity.
Qed.

(** [rstrip("/")] of a prefix followed by [rest]. *)
Lemma rstrip_prefixed (p rest : str) :
  if all_slashes rest
  then rstrip (p ++ rest) (lit "/") = rstrip p (lit "/")
  else exists r c, rstrip (p ++ rest) (lit "/") = p ++ r ++ [c]
                   /\ in_chars (lit "/") c = false.
Proof.
  unfold all_slashes, rstrip.
  destruct (forallb (in_chars (lit "/")) rest) eqn:A.
  - apply rstrip_with_app_nil, A.
  - apply rstrip_with_some in A. destruct A as (r & c & E & Hc).
    exists r, c. split; [|exact Hc]. apply rstrip_with_app_keep, E.
Qed.

(** The two branches of [base_url] on an already trimmed address. *)
Lemma base_url_branches (t : str) :
  let url :=
    if has_scheme t then rstrip t (lit "/")
    else lit "http://" ++ rstrip t (lit "/") in
  if no_host t
  then url = lit "http://" \/ url = lit "http:" \/ url = lit "https:"
  else well_formed_url url.
Proof.
  intros url. subst url. destruct (has_scheme t) eqn:Hs.
  - unfold has_scheme in Hs. apply orb_true_iff in Hs.
    destruct Hs as [H | H]; apply startswith_skipn in H;
      simpl List.length in H;
      match type of H with
      | _ = _ ++ ?s => set (rest := s) in *; clearbody rest; subst t
      end;
      [ rewrite no_host_http; pose proof (rstrip_prefixed (lit "http://") rest) as R
      | rewrite no_host_https; pose proof (rstrip_prefixed (lit "https://") rest) as R ];
      destruct (all_slashes rest).
    + right; left. exact R.
    + destruct R as (r & c & E & Hc). rewrite E.
      apply url_with_host; [reflexivity|exact Hc].
    + right; right. exact R.
    + destruct R as (r & c & E & Hc). rewrite E.
      apply url_with_host; [reflexivity|exact Hc].
  - rewrite (no_host_bare _ Hs).
    pose proof (rstrip_prefixed [] t) as R. simpl app in R.
    destruct (all_slashes t).
    + left. rewrite R. reflexivity.
    + destruct R as (r & c & E & Hc). rewrite E.
      apply (url_with_host (lit "http://")); [reflexivity|exact Hc].
Qed.

(* ===================================================================== *)
(** ** The base URL (claims C4 and C5) *)
(* ===================================================================== *)

(** C4 (as amended). For every address, with [t] the address trimmed of
    whitespace: when [t] has a host part, the base URL starts with [http://]
    or [https://] and does not end with [/]; when [t] has none (it is empty or
    only slashes, or it is [http://] or [https://] followed by nothing but
    slashes), the base URL is [http://], [http:] or [https:]. *)
Theorem base_url_shape (cfg : WhisplayIMConfig.t) :
  let t := strip (WhisplayIMConfig.ip cfg) in
  let url := WhisplayIMConfig.base_url cfg in
  if no_host t
  then url = lit "http://" \/ url = lit "http:" \/ url = lit "https:"
  else has_scheme url = true /\ endswith url (lit "/") = false.
Proof.
  exact (base_url_branches (strip (WhisplayIMConfig.ip cfg))).
Qed.

(** C4 (as stated) fails: the address [http://] gives the base URL [http:],
    which starts with neither scheme, and the empty address gives [http://],
    which ends with a slash. *)
Lemma base_url_shape_counterexample :
  WhisplayIMConfig.base_url (config_of "http://") = lit "http:"
  /\ has_scheme (WhisplayIMConfig.base_url (config_of "http://")) = false
  /\ WhisplayIMConfig.base_url (WhisplayIMConfig.default []) = lit "http://"
  /\ endswith (WhisplayIMConfig.base_url (WhisplayIMConfig.default []))
       (lit "/") = true.
Proof. split; [|split; [|split]]; reflexivity. Qed.

(** C5. The base URL is computed from the trimmed address [t]: when [t]
    starts with [http://] or [https://] and does not end with [/], the base
    URL is [t]; when [t] starts with neither, it is [http://] followed by [t]
    without its trailing slashes. *)
Theorem base_url_normalization (cfg : WhisplayIMConfig.t) :
  let t := strip (WhisplayIMConfig.ip cfg) in
  let url := WhisplayIMConfig.base_url cfg in
  WhisplayIMConfig.base_url
    (WhisplayIMConfig.mk t (WhisplayIMConfig.token cfg)
       (WhisplayIMConfig.wait_sec cfg) (WhisplayIMConfig.timeout_sec cfg)) = url
  /\ (has_scheme t = true -> endswith t (lit "/") = false -> url = t)
  /\ (has_scheme t = false -> url = lit "http://" ++ rstrip t (lit "/"))
  /\ WhisplayIMConfig.base_url (config_of "10.0.0.5:8080")
     = lit "http://10.0.0.5:8080"
  /\ WhisplayIMConfig.base_url (config_of "https://host/") = lit "https://host".
Proof.
  intros t url.
  assert (E : url = if has_scheme t then rstrip t (lit "/")
                    else lit "http://" ++ rstrip t (lit "/")) by reflexivity.
  repeat split.
  - unfold WhisplayIMConfig.base_url. simpl WhisplayIMConfig.ip.
    subst t. rewrite strip_idempotent. reflexivity.
  - intros Hs He. rewrite E, Hs. apply rstrip_no_trailing_slash, He.
  - intros Hs. rewrite E, Hs. reflexivity.
Qed.

Lemma base_url_normalization_witness :
  WhisplayIMConfig.base_url (config_of "  https://bridge.local:8080 ")
  = lit "https://bridge.local:8080"
  /\ WhisplayIMConfig.base_url (config_of " bridge.local// ")
     = lit "http://" ++ rstrip (lit "bridge.local//") (lit "/").
Proof.
  split.
  - apply (proj1 (proj2 (base_url_normalization
                          (config_of "  https://bridge.local:8080 "))));
      reflexivity.
  - apply (proj1 (proj2 (proj2 (base_url_normalization
                                  (config_of " bridge.local// ")))));
      reflexivity.
Defined.

(* ===================================================================== *)
(** ** The status check and the JSON-safe reading *)
(* ===================================================================== *)

Lemma raise_for_status_error (r : Response) :
  (400 <= status_code r < 600)%Z -> raise_for_status r = Raise (HTTPError r).
Proof.
  intros H. unfold raise_for_status.
  destruct ((400 <=? status_code r) && (status_code r <? 500))%Z eqn:E1;
    [reflexivity|].
  destruct ((500 <=? status_code r) && (status_code r <? 600))%Z eqn:E2;
    [reflexivity|].
  apply andb_false_iff in E1, E2. lia.
Qed.

Lemma raise_for_status_pass (r : Response) :
  (status_code r < 400 \/ 600 <= status_code r)%Z ->
  raise_for_status r = Return tt.
Proof.
  intros H. unfold raise_for_status.
  destruct ((400 <=? status_code r) && (status_code r <? 500))%Z eqn:E1;
    [apply andb_true_iff in E1; lia|].
  destruct ((500 <=? status_code r) && (status_code r <? 600))%Z eqn:E2;
    [apply andb_true_iff in E2; lia|].
  reflexivity.
Qed.

Lemma safe_json_blank (r : Response) :
  strip (text r) = [] -> _safe_json r = Return [].
Proof. intros H. unfold _safe_json. rewrite H. reflexivity. Qed.

Lemma safe_json_filled (r : Response) :
  strip (text r) <> [] ->
  _safe_json r =
  match outcome r with
  | Decoded (VDict d) => Return d
  | Decoded v => Return [(lit "data", v)]
  | NotJSON => Return [(lit "text", VStr (text r))]
  | TooDeep => Raise RecursionError
  end.
Proof.
  intros H. unfold _safe_json, json.
  destruct (strip (text r)) as [|c s]; [congruence|]. simpl.
  destruct (outcome r) as [v| |]; [destruct v| |]; reflexivity.
Qed.

Lemma decoded_some (r : Response) (v : value) :
  decoded r = Some v <-> outcome r = Decoded v.
Proof.
  unfold decoded. destruct (outcome r); split; congruence.
Qed.

(** The reading returns unless the decoder gave up on a body that is not
    blank. *)
Lemma safe_json_returns (r : Response) :
  strip (text r) = [] \/ outcome r <> TooDeep ->
  exists d, _safe_json r = Return d.
Proof.
  intros H. destruct (strip (text r)) as [|c s] eqn:E.
  - exists []. apply safe_json_blank, E.
  - rewrite safe_json_filled by congruence.
    destruct H as [H | H]; [discriminate|].
    destruct (outcome r) as [v| |]; [destruct v| |]; try (eexists; reflexivity).
    elim H. reflexivity.
Qed.

(* ===================================================================== *)
(** ** What a call does to the client, and what it returns *)
(* ===================================================================== *)

Lemma untouched_ret A (a : A) : untouched (ret a).
Proof. intros self. reflexivity. Qed.

Lemma untouched_lift A (r : result A) : untouched (lift r).
Proof. intros self. reflexivity. Qed.

Lemma untouched_bind A B (m : M A) (k : A -> M B) :
  untouched m -> (forall a, untouched (k a)) -> untouched (bind m k).
Proof.
  intros Hm Hk self. unfold bind. specialize (Hm self).
  destruct (m self) as [[a|e] self']; simpl in *; subst self'.
  - apply Hk.
  - reflexivity.
Qed.

(** After [m], a continuation that leaves the client alone leaves it as [m]
    left it. *)
Lemma bind_untouched A B (m : M A) (k : A -> M B) (self : WhisplayIMChannel.t) :
  (forall a, untouched (k a)) -> snd (bind m k self) = snd (m self).
Proof.
  intros Hk. unfold bind. destruct (m self) as [[a|e] self']; simpl.
  - apply Hk.
  - reflexivity.
Qed.

Ltac untouched :=
  repeat first
    [ apply untouched_ret
    | apply untouched_lift
    | apply untouched_bind; [|intros ?]
    | match goal with
      | |- untouched (if ?b then _ else _) => destruct b
      | |- untouched (match ?x with _ => _ end) => destruct x
      end ].

(** [poll] sends exactly one request, and changes nothing else. *)
Lemma poll_state (self : WhisplayIMChannel.t) (wait_sec : option Z) :
  snd (poll wait_sec self) = after_sending self (poll_request self wait_sec).
Proof.
  unfold poll. unfold bind at 1. unfold this at 1. cbv beta iota zeta.
  rewrite bind_untouched; [reflexivity|]. intros response. untouched.
Qed.

(** [send] sends exactly one request, and changes nothing else. *)
Lemma send_state (self : WhisplayIMChannel.t) (reply : str) (emoji : option str) :
  snd (send reply emoji self)
  = after_sending self (send_request self reply emoji).
Proof.
  unfold send. unfold bind at 1. unfold this at 1. cbv beta iota zeta.
  rewrite bind_untouched; [|intros response; untouched].
  unfold after_sending, send_request, reply_body.
  destruct emoji as [[|c e]|]; reflexivity.
Qed.

(** The outcome of [poll], by what the network answers. *)
Lemma poll_run (self : WhisplayIMChannel.t) (wait_sec : option Z) :
  fst (poll wait_sec self) =
  match answer self (poll_request self wait_sec) with
  | inl f => Raise (RequestException f)
  | inr r =>
      result_bind (raise_for_status r) (fun _ =>
      result_bind (_safe_json r) (fun payload => Return (extract payload)))
  end.
Proof.
  unfold poll, bind, this, session_get, Requests.get, request, lift, ret,
    answer, poll_request.
  cbv beta iota zeta.
  destruct (network (session self) (sent (session self)) _) as [f|r];
    [reflexivity|].
  destruct (raise_for_status r) as [[]|e]; [|reflexivity].
  destruct (_safe_json r) as [payload|e]; [|reflexivity].
  unfold result_bind, extract, latest_content, poll_result.
  destruct payload as [|kv p]; [reflexivity|].
  set (payload := kv :: p). change (dict_truthy payload) with true.
  cbv beta iota zeta. simpl negb. cbv iota.
  set (message := dict_get payload (lit "message")).
  set (messages := dict_get payload (lit "messages")).
  destruct (truthy message) eqn:Tm.
  - simpl. rewrite Tm. reflexivity.
  - simpl andb.
    destruct messages as [| b | z | fl | s | l | d]; simpl; rewrite ?Tm;
      try reflexivity.
    + destruct b; simpl; rewrite ?Tm; reflexivity.
    + destruct (negb (z =? 0)%Z); simpl; rewrite ?Tm; reflexivity.
    + destruct fl; simpl; rewrite ?Tm; reflexivity.
    + destruct s; simpl; rewrite Tm; reflexivity.
    + destruct l as [|x l]; simpl; [rewrite Tm; reflexivity|].
      destruct (rev l ++ [x]) as [|y ys] eqn:E.
      * destruct (rev l); discriminate.
      * destruct y; simpl; rewrite ?Tm; try reflexivity.
        destruct (truthy (dict_get d (lit "content"))); reflexivity.
    + destruct d; simpl; rewrite Tm; reflexivity.
Qed.

(** The outcome of [send], by what the network answers. *)
Lemma send_run (self : WhisplayIMChannel.t) (reply : str) (emoji : option str) :
  fst (send reply emoji self) =
  match answer self (send_request self reply emoji) with
  | inl f => Raise (RequestException f)
  | inr r => result_bind (raise_for_status r) (fun _ => _safe_json r)
  end.
Proof.
  assert (E : forall body : dict str,
             body = reply_body reply emoji ->
             fst (bind this (fun self0 =>
                    bind (session_post
                            (WhisplayIMConfig.base_url (config self0)
                             ++ lit "/whisplay-im/send")
                            (_headers self0) (json_dumps body false)
                            (WhisplayIMConfig.timeout_sec (config self0)))
                      (fun response =>
                         bind (lift (raise_for_status response))
                           (fun _ => lift (_safe_json response)))) self)
             = match answer self (send_request self reply emoji) with
               | inl f => Raise (RequestException f)
               | inr r => result_bind (raise_for_status r) (fun _ => _safe_json r)
               end).
  { intros body ->.
    unfold bind, this, session_post, Requests.post, request, lift, answer,
      send_request.
    cbv beta iota zeta.
    destruct (network (session self) (sent (session self)) _) as [f|r];
      [reflexivity|].
    destruct (raise_for_status r) as [[]|e]; reflexivity. }
  unfold send. apply E. unfold reply_body.
  destruct emoji as [[|c e]|]; reflexivity.
Qed.

(** From a 2xx response on, [poll] is the extraction of the message. *)
Lemma poll_on_payload (self : WhisplayIMChannel.t) (wait_sec : option Z)
  (r : Response) (payload : dict value) :
  poll_receives self wait_sec r payload ->
  fst (poll wait_sec self) = Return (extract payload).
Proof.
  intros (Ha & Hs & Hj). rewrite poll_run, Ha.
  rewrite raise_for_status_pass by lia. simpl. rewrite Hj. reflexivity.
Qed.

(* ===================================================================== *)
(** ** The JSON-safe reading (claim C1) *)
(* ===================================================================== *)

(** C1 (as amended). [_safe_json] returns a mapping and does not raise
    whenever [response.json()] returns a value or raises [ValueError]: the
    empty mapping when the trimmed body is empty; otherwise the decoded
    mapping itself, or [{"data": v}] for a decoded value [v] that is not a
    mapping, or [{"text": body}] when decoding raises [ValueError]. An
    exception of [response.json()] that is not a [ValueError] is not caught:
    on a body that is not blank, [_safe_json] raises it. *)
Theorem safe_json_mapping (response : Response) :
  ((forall e, json response = Raise e -> e = ValueError) ->
   exists d, _safe_json response = Return d)
  /\ (strip (text response) = [] -> _safe_json response = Return [])
  /\ (strip (text response) <> [] ->
      (forall d, json response = Return (VDict d) ->
                 _safe_json response = Return d)
      /\ (forall v, json response = Return v -> isinstance_dict v = false ->
                    _safe_json response = Return [(lit "data", v)])
      /\ (json response = Raise ValueError ->
          _safe_json response = Return [(lit "text", VStr (text response))])
      /\ (forall e, json response = Raise e -> e <> ValueError ->
                    _safe_json response = Raise e)).
Proof.
  split; [|split; [apply safe_json_blank|]].
  - intros H. apply safe_json_returns. right. intros E.
    specialize (H RecursionError). unfold json in H. rewrite E in H.
    specialize (H eq_refl). discriminate.
  - intros H. rewrite (safe_json_filled _ H). unfold json.
    destruct (outcome response) as [v| |]; (split; [|split; [|split]]).
    + intros d E. injection E as ->. reflexivity.
    + intros v' E Hv. injection E as ->. destruct v'; try reflexivity.
      discriminate.
    + discriminate.
    + discriminate.
    + discriminate.
    + discriminate.
    + reflexivity.
    + intros e E He. injection E as <-. elim He. reflexivity.
    + discriminate.
    + discriminate.
    + discriminate.
    + intros e E _. injection E as <-. reflexivity.
Qed.

(** C1 (as stated) fails: on a body that nests two thousand arrays the
    decoder raises [RecursionError], and so does [_safe_json]. *)
Lemma safe_json_raises_counterexample :
  _safe_json deep_response = Raise RecursionError.
Proof. vm_compute. reflexivity. Qed.

Lemma safe_json_mapping_witness :
  _safe_json (response_of 200 (lit "not json") None)
  = Return [(lit "text", VStr (lit "not json"))]
  /\ _safe_json (response_of 200 (lit "[1,2,3]")
                   (Some (VList [VInt 1; VInt 2; VInt 3])))
     = Return [(lit "data", VList [VInt 1; VInt 2; VInt 3])]
  /\ _safe_json (response_of 200 hi_body (Some (VDict hi_payload)))
     = Return hi_payload
  /\ _safe_json (response_of 200 (lit "  ") None) = Return [].
Proof.
  split; [|split; [|split]].
  - apply (safe_json_mapping (response_of 200 (lit "not json") None));
      [discriminate|reflexivity].
  - apply (safe_json_mapping
             (response_of 200 (lit "[1,2,3]")
                (Some (VList [VInt 1; VInt 2; VInt 3]))));
      [discriminate|reflexivity|reflexivity].
  - apply (safe_json_mapping
             (response_of 200 hi_body (Some (VDict hi_payload))));
      [discriminate|reflexivity].
  - apply (proj1 (proj2 (safe_json_mapping
                           (response_of 200 (lit "  ") None)))).
    reflexivity.
Defined.

(* ===================================================================== *)
(** ** The message [poll] extracts (claims C2, C6 and C10) *)
(* ===================================================================== *)

Lemma dict_get_none (d : dict value) (k : str) :
  dict_lookup d k = None -> dict_get d k = VNone.
Proof. intros H. unfold dict_get. rewrite H. reflexivity. Qed.

(** The empty payload needs no case of its own: it has no message. *)
Lemma extract_formula (payload : dict value) :
  extract payload =
  let message := dict_get payload (lit "message") in
  let text := if truthy message then message else latest_content payload in
  if truthy text then Some (poll_result text payload) else None.
Proof. destruct payload; reflexivity. Qed.

Lemma extract_message (payload : dict value) (m : value) :
  dict_get payload (lit "message") = m -> truthy m = true ->
  extract payload = Some (poll_result m payload).
Proof.
  intros E T. rewrite extract_formula. cbv zeta. rewrite E, T, T. reflexivity.
Qed.

Lemma extract_fallback (payload : dict value) :
  truthy (dict_get payload (lit "message")) = false ->
  extract payload =
  if truthy (latest_content payload)
  then Some (poll_result (latest_content payload) payload)
  else None.
Proof.
  intros T. rewrite extract_formula. cbv zeta. rewrite T. reflexivity.
Qed.

Lemma latest_content_last (payload : dict value) (l : list value) (x : value) :
  dict_get payload (lit "messages") = VList (l ++ [x]) ->
  latest_content payload =
  match x with VDict d => dict_get d (lit "content") | _ => VNone end.
Proof.
  intros H. unfold latest_content. rewrite H, rev_unit. reflexivity.
Qed.

Lemma latest_content_empty (payload : dict value) :
  dict_get payload (lit "messages") = VList [] ->
  latest_content payload = VNone.
Proof. intros H. unfold latest_content. rewrite H. reflexivity. Qed.

Lemma latest_content_not_list (payload : dict value) :
  isinstance_list (dict_get payload (lit "messages")) = false ->
  latest_content payload = VNone.
Proof.
  intros H. unfold latest_content.
  destruct (dict_get payload (lit "messages")); try reflexivity.
  discriminate.
Qed.

(** C2 (as amended). On a 2xx response with payload [payload], with
    [message] and [messages] what the payload holds under these keys ([None]
    when absent): a truthy [message] is the text of the result. When
    [message] is absent or otherwise falsy (the empty string included) and
    [messages] is a non-empty list whose last element is a mapping, the
    [content] of that mapping is taken as the message: it is the text of the
    result when it is truthy, and there is no result when it is not. When
    [message] is absent or falsy and [messages] is empty, or its last
    element is not a mapping, or that mapping has no [content], or [messages]
    is no list at all, [poll] returns the absent result. *)
Theorem poll_extracts_message (self : WhisplayIMChannel.t)
  (wait_sec : option Z) (r : Response) (payload : dict value) :
  poll_receives self wait_sec r payload ->
  let message := dict_get payload (lit "message") in
  let messages := dict_get payload (lit "messages") in
  (truthy message = true ->
   fst (poll wait_sec self) = Return (Some (poll_result message payload)))
  /\ (truthy message = false ->
      (forall l d,
          messages = VList (l ++ [VDict d]) ->
          fst (poll wait_sec self)
          = Return (if truthy (dict_get d (lit "content"))
                    then Some (poll_result (dict_get d (lit "content")) payload)
                    else None))
      /\ (forall l d,
             messages = VList (l ++ [VDict d]) ->
             dict_lookup d (lit "content") = None ->
             fst (poll wait_sec self) = Return None)
      /\ (messages = VList [] -> fst (poll wait_sec self) = Return None)
      /\ (forall l x,
             messages = VList (l ++ [x]) -> isinstance_dict x = false ->
             fst (poll wait_sec self) = Return None)
      /\ (isinstance_list messages = false ->
          fst (poll wait_sec self) = Return None)).
Proof.
  intros Hr message messages. rewrite (poll_on_payload Hr). split.
  - intros Tm. f_equal. apply extract_message; [reflexivity|exact Tm].
  - intros Tm. rewrite (extract_fallback _ Tm).
    split; [|split; [|split; [|split]]].
    + intros l d Hl. rewrite (latest_content_last _ _ _ Hl). reflexivity.
    + intros l d Hl Hc. rewrite (latest_content_last _ _ _ Hl).
      rewrite (dict_get_none _ _ Hc). reflexivity.
    + intros Hl. rewrite (latest_content_empty _ Hl). reflexivity.
    + intros l x Hl Hx. rewrite (latest_content_last _ _ _ Hl).
      destruct x; try reflexivity. discriminate.
    + intros Hl. rewrite (latest_content_not_list _ Hl). reflexivity.
Qed.

(** The example of the claim: the last of two messages wins. *)
Lemma poll_extracts_message_witness :
  fst (poll None
         (client_of (response_of 200 two_messages_body
                       (Some (VDict two_messages_payload)))))
  = Return (Some (poll_result (VStr (lit "b")) two_messages_payload)).
Proof.
  assert (H : poll_receives
                (client_of (response_of 200 two_messages_body
                              (Some (VDict two_messages_payload))))
                None
                (response_of 200 two_messages_body
                   (Some (VDict two_messages_payload)))
                two_messages_payload).
  { split; [reflexivity|]. split; [simpl; lia|reflexivity]. }
  exact (proj1 (proj2 (poll_extracts_message H) eq_refl)
           [VDict [(lit "content", VStr (lit "a"))]]
           [(lit "content", VStr (lit "b"))] eq_refl).
Defined.

(** C2 (as stated) fails: in the payload below the [message] field is
    present, holding the empty string, and [poll] still falls back to
    [messages]; the text of its result is the content of the last message,
    not the [message] field. *)
Lemma poll_extracts_message_counterexample :
  dict_lookup empty_message_payload (lit "message") = Some (VStr [])
  /\ fst (poll None
            (client_of (response_of 200 empty_message_body
                          (Some (VDict empty_message_payload)))))
     = Return (Some (poll_result (VStr (lit "b")) empty_message_payload)).
Proof. split; reflexivity. Qed.

(** C6. A 2xx response whose body is empty after trimming, or decodes to the
    empty mapping, makes [poll] return the absent result; nothing is
    raised. *)
Theorem poll_empty_is_absent (self : WhisplayIMChannel.t)
  (wait_sec : option Z) (r : Response) :
  answer self (poll_request self wait_sec) = inr r ->
  (200 <= status_code r < 300)%Z ->
  strip (text r) = [] \/ json r = Return (VDict []) ->
  fst (poll wait_sec self) = Return None.
Proof.
  intros Ha Hs Hb.
  assert (Hj : _safe_json r = Return []).
  { destruct Hb as [Hb | Hb]; [apply safe_json_blank, Hb|].
    destruct (strip (text r)) as [|c s] eqn:E; [apply safe_json_blank, E|].
    rewrite safe_json_filled by congruence. unfold json in Hb.
    destruct (outcome r) as [v| |]; try discriminate.
    injection Hb as ->. reflexivity. }
  rewrite (@poll_on_payload self wait_sec r []); [reflexivity|].
  split; [exact Ha|]. split; [exact Hs|exact Hj].
Qed.

Lemma poll_empty_is_absent_witness :
  fst (poll None (client_of (response_of 200 (lit " ") None))) = Return None
  /\ fst (poll (Some 5%Z)
            (client_of (response_of 204 (lit "{}") (Some (VDict [])))))
     = Return None.
Proof.
  split.
  - apply (@poll_empty_is_absent
             (client_of (response_of 200 (lit " ") None)) None
             (response_of 200 (lit " ") None));
      [reflexivity | simpl; lia | left; reflexivity].
  - apply (@poll_empty_is_absent
             (client_of (response_of 204 (lit "{}") (Some (VDict []))))
             (Some 5%Z)
             (response_of 204 (lit "{}") (Some (VDict []))));
      [reflexivity | simpl; lia | right; reflexivity].
Defined.

(** C10. [poll] tests the message for truthiness, not for presence. On a 2xx
    response whose [message] is falsy (the empty string in particular, as
    well as an absent field), the result is decided by the latest content
    alone: [poll] falls back to the [messages] list, returns that content as
    the text when it is truthy, and returns the absent result when it is
    not. *)
Theorem poll_tests_truthiness (self : WhisplayIMChannel.t)
  (wait_sec : option Z) (r : Response) (payload : dict value) :
  poll_receives self wait_sec r payload ->
  truthy (dict_get payload (lit "message")) = false ->
  fst (poll wait_sec self)
  = Return (if truthy (latest_content payload)
            then Some (poll_result (latest_content payload) payload)
            else None).
Proof.
  intros Hr T. rewrite (poll_on_payload Hr), (extract_fallback _ T).
  reflexivity.
Qed.

(** With [message] the empty string: the content of the last message is the
    text; without any message to fall back to, the result is absent. *)
Lemma poll_tests_truthiness_witness :
  fst (poll None
         (client_of (response_of 200 empty_message_body
                       (Some (VDict empty_message_payload)))))
  = Return (Some (poll_result (VStr (lit "b")) empty_message_payload))
  /\ fst (poll None
            (client_of (response_of 200 blank_message_body
                          (Some (VDict blank_message_payload)))))
     = Return None.
Proof.
  split.
  - apply (@poll_tests_truthiness
             (client_of (response_of 200 empty_message_body
                           (Some (VDict empty_message_payload))))
             None
             (response_of 200 empty_message_body
                (Some (VDict empty_message_payload)))
             empty_message_payload).
    + split; [reflexivity|]. split; [simpl; lia|reflexivity].
    + reflexivity.
  - apply (@poll_tests_truthiness
             (client_of (response_of 200 blank_message_body
                           (Some (VDict blank_message_payload))))
             None
             (response_of 200 blank_message_body
                (Some (VDict blank_message_payload)))
             blank_message_payload).
    + split; [reflexivity|]. split; [simpl; lia|reflexivity].
    + reflexivity.
Defined.

(* ===================================================================== *)
(** ** The status check (claim C3) *)
(* ===================================================================== *)

(** C3 (as amended). For every response with a 4xx or 5xx status code,
    [poll] and [send] raise [HTTPError] carrying that response (its status
    code and its body), and return no result. *)
Theorem error_status_raises (self : WhisplayIMChannel.t) (r : Response) :
  (400 <= status_code r < 600)%Z ->
  (forall wait_sec,
      answer self (poll_request self wait_sec) = inr r ->
      fst (poll wait_sec self) = Raise (HTTPError r))
  /\ (forall reply emoji,
         answer self (send_request self reply emoji) = inr r ->
         fst (send reply emoji self) = Raise (HTTPError r)).
Proof.
  intros Hs. split.
  - intros wait_sec Ha. rewrite poll_run, Ha, (raise_for_status_error _ Hs).
    reflexivity.
  - intros reply emoji Ha.
    rewrite send_run, Ha, (raise_for_status_error _ Hs). reflexivity.
Qed.

(** A 500 response to [poll], and to [send], raises. *)
Lemma error_status_raises_witness :
  fst (poll None (client_of server_error)) = Raise (HTTPError server_error)
  /\ fst (send (lit "hello") None (client_of server_error))
     = Raise (HTTPError server_error).
Proof.
  assert (Hs : (400 <= status_code server_error < 600)%Z) by (simpl; lia).
  split.
  - apply (proj1 (@error_status_raises (client_of server_error)
                    server_error Hs)).
    reflexivity.
  - apply (proj2 (@error_status_raises (client_of server_error)
                    server_error Hs)).
    reflexivity.
Defined.

(** C3 (as stated) fails outside 4xx and 5xx: a 304 response makes [poll]
    return the absent result and [send] return the empty mapping, and a 300
    response that carries a message makes [poll] return that message. *)
Lemma non_2xx_status_counterexample :
  fst (poll None (client_of not_modified)) = Return None
  /\ fst (send (lit "hello") None (client_of not_modified)) = Return []
  /\ fst (poll None (client_of multiple_choices))
     = Return (Some (poll_result (VStr (lit "hi")) hi_payload)).
Proof. split; [|split]; reflexivity. Qed.

(* ===================================================================== *)
(** ** The headers of a request (claim C7) *)
(* ===================================================================== *)

Lemma headers_expected (self : WhisplayIMChannel.t) :
  _headers self = expected_headers (config self).
Proof.
  unfold _headers, expected_headers.
  destruct (WhisplayIMConfig.token (config self)) as [[|c tok]|];
    [reflexivity| |reflexivity].
  simpl str_truthy. cbv iota.
  destruct (strip (c :: tok)); reflexivity.
Qed.

(** C7. The headers of every request [poll] or [send] issues are exactly
    [Content-Type: application/json], followed by
    [Authorization: Bearer <token>], with the trimmed token, if and only if
    the configured token is not empty after trimming. *)
Theorem headers_exact (self : WhisplayIMChannel.t) :
  let token :=
    strip (match WhisplayIMConfig.token (config self) with
           | Some t => t
           | None => []
           end) in
  let expected :=
    (lit "Content-Type", lit "application/json")
    :: match token with
       | [] => []
       | _ :: _ => [(lit "Authorization", lit "Bearer " ++ token)]
       end in
  _headers self = expected
  /\ (forall wait_sec, exists req,
         snd (poll wait_sec self) = after_sending self req
         /\ headers req = expected)
  /\ (forall reply emoji, exists req,
         snd (send reply emoji self) = after_sending self req
         /\ headers req = expected)
  /\ (token <> [] <->
      dict_lookup (_headers self) (lit "Authorization")
      = Some (lit "Bearer " ++ token))
  /\ (token = [] <->
      dict_lookup (_headers self) (lit "Authorization") = None).
Proof.
  intros token expected.
  assert (E : _headers self = expected) by apply headers_expected.
  split; [exact E|]. split; [|split].
  - intros wait_sec. exists (poll_request self wait_sec).
    split; [apply poll_state|exact E].
  - intros reply emoji. exists (send_request self reply emoji).
    split; [apply send_state|exact E].
  - rewrite E. subst expected. clearbody token.
    destruct token as [|c tok]; simpl; split; split; intros H;
      solve [reflexivity | congruence | elim H; reflexivity].
Qed.

(* ===================================================================== *)
(** ** The configuration is left alone (claim C9) *)
(* ===================================================================== *)

Lemma perform_config (self : WhisplayIMChannel.t) (c : call) :
  config (perform self c) = config self.
Proof.
  destruct c as [wait_sec | reply emoji]; simpl.
  - rewrite poll_state. reflexivity.
  - rewrite send_state. reflexivity.
Qed.

(** C9. After every sequence of [poll] and [send] calls, the configuration
    of the client (address, token, default wait seconds, timeout seconds) is
    the one it was constructed with. *)
Theorem config_never_mutated (calls : list call) (cfg : WhisplayIMConfig.t)
  (network : list Request -> Request -> failure + Response) :
  config (run calls (init cfg network)) = cfg
  /\ forall self, config (run calls self) = config self.
Proof.
  assert (H : forall self, config (run calls self) = config self).
  { induction calls as [|c calls IH]; intros self; [reflexivity|].
    simpl. rewrite IH. apply perform_config. }
  split; [apply H|exact H].
Qed.

(* ===================================================================== *)
(** ** The body of a reply (claim C8) *)
(* ===================================================================== *)

(** With [ensure_ascii=True] the emoji would have left as a surrogate pair
    of escapes. *)
Lemma ensure_ascii_contrast :
  encode_basestring true thumbs_up = quoted (lit "\ud83d\udc4d").
Proof. reflexivity. Qed.





















(** A token between spaces is sent trimmed; a token of spaces is not sent. *)
Lemma headers_exact_witness :
  _headers (init (WhisplayIMConfig.mk (lit "10.0.0.5:8080")
                    (Some (lit " s3cret ")) 30 35) (always not_modified))
  = [(lit "Content-Type", lit "application/json");
     (lit "Authorization", lit "Bearer s3cret")]
  /\ _headers (init (WhisplayIMConfig.mk (lit "10.0.0.5:8080")
                       (Some (lit "   ")) 30 35) (always not_modified))
     = [(lit "Content-Type", lit "application/json")].
Proof.
  split.
  - exact (proj1 (headers_exact
                    (init (WhisplayIMConfig.mk (lit "10.0.0.5:8080")
                             (Some (lit " s3cret ")) 30 35)
                       (always not_modified)))).
  - exact (proj1 (headers_exact
                    (init (WhisplayIMConfig.mk (lit "10.0.0.5:8080")
                             (Some (lit "   ")) 30 35)
                       (always not_modified)))).
Defined.

(* ===================================================================== *)
(** ** Further properties: the requests a client sends *)
(* ===================================================================== *)

(** X1. Whatever the outcome, [poll] sends exactly one request: a GET to
    [<base URL>/whisplay-im/poll] without a body, with the configured
    timeout, and with the single query parameter [waitSec]. An explicit wait
    (zero and negative values included) is sent as it is; only [None] falls
    back to the configured default. *)
Theorem poll_sends_one_get (self : WhisplayIMChannel.t) (wait_sec : option Z) :
  exists req,
    snd (poll wait_sec self) = after_sending self req
    /\ method req = GET
    /\ url req
       = WhisplayIMConfig.base_url (config self) ++ lit "/whisplay-im/poll"
    /\ params req
       = [(lit "waitSec",
           match wait_sec with
           | Some w => w
           | None => WhisplayIMConfig.wait_sec (config self)
           end)]
    /\ data req = None
    /\ timeout req = WhisplayIMConfig.timeout_sec (config self).
Proof.
  exists (poll_request self wait_sec). split; [apply poll_state|].
  repeat split.
Qed.

(** X2. Whatever the outcome, [send] sends exactly one request: a POST to
    [<base URL>/whisplay-im/send] without query parameters, with the
    configured timeout, whose body is the JSON text of the reply mapping. *)
Theorem send_sends_one_post (self : WhisplayIMChannel.t) (reply : str)
  (emoji : option str) :
  exists req,
    snd (send reply emoji self) = after_sending self req
    /\ method req = POST
    /\ url req
       = WhisplayIMConfig.base_url (config self) ++ lit "/whisplay-im/send"
    /\ params req = []
    /\ data req = Some (json_dumps (reply_body reply emoji) false)
    /\ timeout req = WhisplayIMConfig.timeout_sec (config self).
Proof.
  exists (send_request self reply emoji). split; [apply send_state|].
  repeat split.
Qed.

Lemma call_request_after (self : WhisplayIMChannel.t) (req : Request) (c : call) :
  call_request (after_sending self req) c = call_request self c.
Proof. destruct c; reflexivity. Qed.

Lemma perform_sends (self : WhisplayIMChannel.t) (c : call) :
  perform self c = after_sending self (call_request self c).
Proof.
  destruct c as [wait_sec | reply emoji]; simpl.
  - apply poll_state.
  - apply send_state.
Qed.

(** X3. Over any sequence of calls the client sends one request per call, in
    order, and each request is the one the initial configuration determines
    for that call: no response, error or earlier call changes what is sent
    later, and nothing is sent twice. The network the session talks to stays
    the same. *)
Theorem requests_follow_calls (calls : list call) (self : WhisplayIMChannel.t) :
  sent (session (run calls self))
  = sent (session self) ++ map (call_request self) calls
  /\ network (session (run calls self)) = network (session self).
Proof.
  revert self. induction calls as [|c calls IH]; intros self.
  - simpl. rewrite app_nil_r. split; reflexivity.
  - simpl. rewrite perform_sends.
    destruct (IH (after_sending self (call_request self c))) as [Hs Hn].
    rewrite Hs, Hn. simpl. rewrite <- app_assoc. simpl.
    rewrite (map_ext (call_request (after_sending self (call_request self c)))
               (call_request self))
      by (intros c'; apply call_request_after).
    split; reflexivity.
Qed.

(* ===================================================================== *)
(** ** Further properties: failures *)
(* ===================================================================== *)

(** X4. When the network fails (no connection, no answer in time), [poll]
    and [send] raise that failure as it is, after the one request they
    sent: there is no retry and no fallback result. *)
Theorem network_failure_propagates (self : WhisplayIMChannel.t) (f : failure) :
  (forall wait_sec,
      answer self (poll_request self wait_sec) = inl f ->
      poll wait_sec self
      = (Raise (RequestException f),
         after_sending self (poll_request self wait_sec)))
  /\ (forall reply emoji,
         answer self (send_request self reply emoji) = inl f ->
         send reply emoji self
         = (Raise (RequestException f),
            after_sending self (send_request self reply emoji))).
Proof.
  split.
  - intros wait_sec Ha.
    rewrite (surjective_pairing (poll wait_sec self)).
    rewrite poll_run, poll_state, Ha. reflexivity.
  - intros reply emoji Ha.
    rewrite (surjective_pairing (send reply emoji self)).
    rewrite send_run, send_state, Ha. reflexivity.
Qed.

Lemma network_failure_propagates_witness :
  fst (poll None (init (config_of "10.0.0.5:8080") (failing TimedOut)))
  = Raise (RequestException TimedOut)
  /\ fst (send (lit "hello") None
            (init (config_of "10.0.0.5:8080") (failing ConnectionFailed)))
     = Raise (RequestException ConnectionFailed).
Proof.
  split.
  - rewrite (proj1 (network_failure_propagates
                      (init (config_of "10.0.0.5:8080") (failing TimedOut))
                      TimedOut) None); reflexivity.
  - rewrite (proj2 (network_failure_propagates
                      (init (config_of "10.0.0.5:8080")
                         (failing ConnectionFailed))
                      ConnectionFailed) (lit "hello") None); reflexivity.
Defined.

(** X5. Once a response has passed the status check and its JSON-safe
    reading has returned a payload, [poll] returns, whatever the payload
    holds: the indexing [messages[-1]] is reached only for a non-empty list,
    and [latest.get] only for a mapping, so no [IndexError], [KeyError] or
    [TypeError] arises from reading the payload. *)
Theorem poll_reads_any_payload (self : WhisplayIMChannel.t)
  (wait_sec : option Z) (r : Response) (payload : dict value) :
  answer self (poll_request self wait_sec) = inr r ->
  (status_code r < 400 \/ 600 <= status_code r)%Z ->
  _safe_json r = Return payload ->
  exists result, fst (poll wait_sec self) = Return result.
Proof.
  intros Ha Hs Hj. exists (extract payload).
  rewrite poll_run, Ha, (raise_for_status_pass _ Hs). simpl.
  rewrite Hj. reflexivity.
Qed.

Lemma poll_reads_any_payload_witness :
  exists result,
    fst (poll None
           (client_of
              (response_of 200 odd_messages_body
                 (Some (VDict [(lit "messages", VStr (lit "content"))])))))
    = Return result.
Proof.
  apply (@poll_reads_any_payload
           (client_of
              (response_of 200 odd_messages_body
                 (Some (VDict [(lit "messages", VStr (lit "content"))]))))
           None
           (response_of 200 odd_messages_body
              (Some (VDict [(lit "messages", VStr (lit "content"))])))
           [(lit "messages", VStr (lit "content"))]).
  - reflexivity.
  - simpl. lia.
  - reflexivity.
Defined.

(* ===================================================================== *)
(** ** Further properties: results *)
(* ===================================================================== *)

(** X7. A result of [poll] is never half-filled. When [poll] returns a
    result, a response was received whose JSON-safe reading is the [raw]
    field of the result; [messages] is whatever the payload holds under that
    key; and [text] is truthy, being the payload's [message] or, when that is
    falsy, the content of the last message. *)
Theorem poll_result_invariant (self : WhisplayIMChannel.t)
  (wait_sec : option Z) (res : dict value) :
  fst (poll wait_sec self) = Return (Some res) ->
  exists r payload text,
    answer self (poll_request self wait_sec) = inr r
    /\ _safe_json r = Return payload
    /\ res = [(lit "text", text);
              (lit "messages", dict_get payload (lit "messages"));
              (lit "raw", VDict payload)]
    /\ truthy text = true
    /\ (text = dict_get payload (lit "message")
        \/ (truthy (dict_get payload (lit "message")) = false
            /\ text = latest_content payload)).
Proof.
  rewrite poll_run.
  destruct (answer self (poll_request self wait_sec)) as [f|r];
    [discriminate|].
  destruct (raise_for_status r) as [[]|e]; [|discriminate]. simpl.
  destruct (_safe_json r) as [payload|e] eqn:Hj; [|discriminate]. simpl.
  rewrite extract_formula. cbv zeta.
  destruct (truthy (dict_get payload (lit "message"))) eqn:Tm.
  - rewrite Tm. intros H. injection H as <-.
    exists r, payload, (dict_get payload (lit "message")).
    split; [reflexivity|]. split; [exact Hj|]. split; [reflexivity|].
    split; [exact Tm|left; reflexivity].
  - destruct (truthy (latest_content payload)) eqn:Tl; [|discriminate].
    intros H. injection H as <-.
    exists r, payload, (latest_content payload).
    split; [reflexivity|]. split; [exact Hj|]. split; [reflexivity|].
    split; [exact Tl|right; split; [exact Tm|reflexivity]].
Qed.

Lemma poll_result_invariant_witness :
  exists r payload text,
    answer (client_of multiple_choices)
      (poll_request (client_of multiple_choices) None) = inr r
    /\ _safe_json r = Return payload
    /\ poll_result (VStr (lit "hi")) hi_payload
       = [(lit "text", text);
          (lit "messages", dict_get payload (lit "messages"));
          (lit "raw", VDict payload)]
    /\ truthy text = true
    /\ (text = dict_get payload (lit "message")
        \/ (truthy (dict_get payload (lit "message")) = false
            /\ text = latest_content payload)).
Proof.
  apply (@poll_result_invariant (client_of multiple_choices) None
           (poll_result (VStr (lit "hi")) hi_payload)).
  reflexivity.
Defined.

(** X8. A response that passes the status check but whose body is not a JSON
    object (decoding it raises [ValueError], or it decodes to a list, a
    string, a number, a boolean or null) looks like "no message": [poll]
    returns the absent result, and the body is not reported. *)
Theorem poll_non_object_body (self : WhisplayIMChannel.t)
  (wait_sec : option Z) (r : Response) :
  answer self (poll_request self wait_sec) = inr r ->
  (status_code r < 400 \/ 600 <= status_code r)%Z ->
  json r = Raise ValueError
  \/ (exists v, json r = Return v /\ isinstance_dict v = false) ->
  fst (poll wait_sec self) = Return None.
Proof.
  intros Ha Hs Hd. rewrite poll_run, Ha, (raise_for_status_pass _ Hs). simpl.
  destruct (strip (text r)) as [|c s] eqn:E.
  - rewrite (safe_json_blank _ E). reflexivity.
  - rewrite safe_json_filled by congruence. unfold json in Hd.
    destruct (outcome r) as [v| |].
    + destruct Hd as [Hd | (v' & Hd & Hv)]; [discriminate|].
      injection Hd as <-. destruct v; try reflexivity. discriminate.
    + reflexivity.
    + destruct Hd as [Hd | (v' & Hd & _)]; discriminate.
Qed.

Lemma poll_non_object_body_witness :
  fst (poll None (client_of (response_of 200 (lit "not json") None)))
  = Return None
  /\ fst (poll None
            (client_of (response_of 200 (lit "[1,2,3]")
                          (Some (VList [VInt 1; VInt 2; VInt 3])))))
     = Return None.
Proof.
  split.
  - apply (@poll_non_object_body
             (client_of (response_of 200 (lit "not json") None)) None
             (response_of 200 (lit "not json") None));
      [reflexivity | simpl; lia | left; reflexivity].
  - apply (@poll_non_object_body
             (client_of (response_of 200 (lit "[1,2,3]")
                           (Some (VList [VInt 1; VInt 2; VInt 3]))))
             None
             (response_of 200 (lit "[1,2,3]")
                (Some (VList [VInt 1; VInt 2; VInt 3]))));
      [reflexivity | simpl; lia |].
    right. exists (VList [VInt 1; VInt 2; VInt 3]). split; reflexivity.
Defined.

(** X9. With no truthy [message], a [messages] field that is absent or is
    not a list (a mapping, a string, a number) gives the absent result: the
    fallback reads lists only. *)
Theorem poll_messages_not_a_list (self : WhisplayIMChannel.t)
  (wait_sec : option Z) (r : Response) (payload : dict value) :
  poll_receives self wait_sec r payload ->
  truthy (dict_get payload (lit "message")) = false ->
  isinstance_list (dict_get payload (lit "messages")) = false ->
  fst (poll wait_sec self) = Return None.
Proof.
  intros Hr Tm Hl. rewrite (poll_on_payload Hr), (extract_fallback _ Tm).
  unfold latest_content.
  destruct (dict_get payload (lit "messages")); try reflexivity.
  discriminate.
Qed.

Lemma poll_messages_not_a_list_witness :
  fst (poll None
         (client_of
            (response_of 200 odd_messages_body
               (Some (VDict [(lit "messages", VStr (lit "content"))])))))
  = Return None.
Proof.
  apply (@poll_messages_not_a_list
           (client_of
              (response_of 200 odd_messages_body
                 (Some (VDict [(lit "messages", VStr (lit "content"))]))))
           None
           (response_of 200 odd_messages_body
              (Some (VDict [(lit "messages", VStr (lit "content"))])))
           [(lit "messages", VStr (lit "content"))]).
  - split; [reflexivity|]. split; [simpl; lia|reflexivity].
  - reflexivity.
  - reflexivity.
Defined.


(** X11. When the response passes the status check, [send] returns its
    JSON-safe reading and nothing else; a body that decodes to a mapping is
    returned as that mapping, key for key. *)
Theorem send_returns_reading (self : WhisplayIMChannel.t) (reply : str)
  (emoji : option str) (r : Response) :
  answer self (send_request self reply emoji) = inr r ->
  (status_code r < 400 \/ 600 <= status_code r)%Z ->
  fst (send reply emoji self) = _safe_json r
  /\ (forall d, strip (text r) <> [] -> decoded r = Some (VDict d) ->
                fst (send reply emoji self) = Return d).
Proof.
  intros Ha Hs.
  assert (E : fst (send reply emoji self) = _safe_json r).
  { rewrite send_run, Ha, (raise_for_status_pass _ Hs). reflexivity. }
  split; [exact E|]. intros d Hb Hd.
  apply decoded_some in Hd.
  rewrite E, safe_json_filled by exact Hb. rewrite Hd. reflexivity.
Qed.

Lemma send_returns_reading_witness :
  fst (send (lit "hello") (Some thumbs_up)
         (client_of (response_of 200 hi_body (Some (VDict hi_payload)))))
  = Return hi_payload.
Proof.
  apply (@send_returns_reading
           (client_of (response_of 200 hi_body (Some (VDict hi_payload))))
           (lit "hello") (Some thumbs_up)
           (response_of 200 hi_body (Some (VDict hi_payload))));
    [reflexivity | simpl; lia | discriminate | reflexivity].
Defined.

(* ===================================================================== *)
(** ** Further properties: trimming *)
(* ===================================================================== *)

Lemma strip_head (s : str) (c : char) (rest : str) :
  strip s = c :: rest -> isspace c = false.
Proof.
  unfold strip.
  destruct (lstrip_with_head isspace s) as [E | (c' & r & E & Hc)]; rewrite E.
  - discriminate.
  - destruct (@rstrip_with_cons_keeps isspace c' r Hc) as (r' & E').
    rewrite E'. intros H. injection H as <- _. exact Hc.
Qed.

Lemma strip_last (s : str) (rest : str) (c : char) :
  strip s = rest ++ [c] -> isspace c = false.
Proof.
  unfold strip.
  destruct (rstrip_with_cases isspace (lstrip_with isspace s))
    as [E | (r & c' & E & Hc)]; rewrite E.
  - intros H. destruct rest; discriminate.
  - intros H. apply app_inj_tail in H. destruct H as [_ <-]. exact Hc.
Qed.

(** X12. Whenever an [Authorization] header is sent, its value is [Bearer ]
    followed by a token that is not empty and neither starts nor ends with a
    whitespace character, however the configured token was padded. *)
Theorem bearer_token_trimmed (self : WhisplayIMChannel.t) (v : str) :
  dict_lookup (_headers self) (lit "Authorization") = Some v ->
  exists tok,
    v = lit "Bearer " ++ tok
    /\ (exists c rest, tok = c :: rest /\ isspace c = false)
    /\ (exists rest c, tok = rest ++ [c] /\ isspace c = false).
Proof.
  rewrite headers_expected. unfold expected_headers. cbv zeta.
  set (raw := match WhisplayIMConfig.token (config self) with
              | Some t => t
              | None => []
              end).
  destruct (strip raw) as [|c rest] eqn:E; simpl; [discriminate|].
  intros H. injection H as <-. exists (c :: rest). split; [reflexivity|].
  split.
  - exists c, rest. split; [reflexivity|]. apply (@strip_head raw c rest E).
  - destruct (@exists_last _ (c :: rest)) as (r & c' & E'); [discriminate|].
    exists r, c'. split; [exact E'|]. rewrite E' in E.
    apply (@strip_last raw r c' E).
Qed.

Lemma bearer_token_trimmed_witness :
  exists tok,
    lit "Bearer s3cret" = lit "Bearer " ++ tok
    /\ (exists c rest, tok = c :: rest /\ isspace c = false)
    /\ (exists rest c, tok = rest ++ [c] /\ isspace c = false).
Proof.
  apply (@bearer_token_trimmed
           (init (WhisplayIMConfig.mk (lit "10.0.0.5:8080")
                    (Some (lit "  s3cret ")) 30 35) (always not_modified))
           (lit "Bearer s3cret")).
  reflexivity.
Defined.

Lemma lstrip_with_all (f : char -> bool) (ws : str) :
  forallb f ws = true -> lstrip_with f ws = [].
Proof.
  induction ws as [|c ws IH]; simpl; [reflexivity|]. intros H.
  apply andb_true_iff in H. destruct H as [Hc H]. rewrite Hc. apply IH, H.
Qed.

Lemma lstrip_with_padding (f : char -> bool) (ws s : str) :
  forallb f ws = true -> lstrip_with f (ws ++ s) = lstrip_with f s.
Proof.
  induction ws as [|c ws IH]; simpl; [reflexivity|]. intros H.
  apply andb_true_iff in H. destruct H as [Hc H]. rewrite Hc. apply IH, H.
Qed.

Lemma strip_with_padding_right (f : char -> bool) (s ws : str) :
  forallb f ws = true ->
  rstrip_with f (lstrip_with f (s ++ ws)) = rstrip_with f (lstrip_with f s).
Proof.
  intros H. induction s as [|c s IH]; simpl.
  - rewrite (@lstrip_with_all f ws H). reflexivity.
  - destruct (f c); [exact IH|].
    apply (@rstrip_with_app_nil f (c :: s) ws H).
Qed.

Lemma strip_padding (ws1 s ws2 : str) :
  forallb isspace ws1 = true -> forallb isspace ws2 = true ->
  strip (ws1 ++ s ++ ws2) = strip s.
Proof.
  intros H1 H2. unfold strip.
  rewrite (@lstrip_with_padding isspace ws1 (s ++ ws2) H1).
  apply strip_with_padding_right, H2.
Qed.

(** X13. Whitespace around the address does not matter: an address padded
    with any whitespace characters on either side has the base URL of the
    address itself. *)
Theorem base_url_ignores_padding (cfg : WhisplayIMConfig.t) (ws1 ws2 : str) :
  forallb isspace ws1 = true -> forallb isspace ws2 = true ->
  WhisplayIMConfig.base_url
    (with_ip cfg (ws1 ++ WhisplayIMConfig.ip cfg ++ ws2))
  = WhisplayIMConfig.base_url cfg.
Proof.
  intros H1 H2. unfold WhisplayIMConfig.base_url, with_ip.
  simpl WhisplayIMConfig.ip.
  rewrite (@strip_padding ws1 (WhisplayIMConfig.ip cfg) ws2 H1 H2).
  reflexivity.
Qed.

Lemma base_url_ignores_padding_witness :
  WhisplayIMConfig.base_url
    (with_ip (config_of "https://host/")
       ([0x09; 0x20]%N ++ lit "https://host/" ++ [0x0A; 0x3000]%N))
  = WhisplayIMConfig.base_url (config_of "https://host/").
Proof.
  apply (@base_url_ignores_padding (config_of "https://host/")
           [0x09; 0x20]%N [0x0A; 0x3000]%N); reflexivity.
Defined.

Lemma rstrip_with_none (f : char -> bool) (s : str) :
  forallb (fun c => negb (f c)) s = true -> rstrip_with f s = s.
Proof.
  induction s as [|c s IH]; simpl; [reflexivity|]. intros H.
  apply andb_true_iff in H. destruct H as [Hc H]. rewrite (IH H).
  destruct s; [|reflexivity].
  destruct (f c); [discriminate|reflexivity].
Qed.

Lemma slash_not_space (c : char) : in_chars (lit "/") c = true -> isspace c = false.
Proof. rewrite in_slash. intros H. apply N.eqb_eq in H. subst c. reflexivity. Qed.

Lemma slashes_not_spaces (sl : str) :
  all_slashes sl = true -> forallb (fun c => negb (isspace c)) sl = true.
Proof.
  unfold all_slashes. induction sl as [|c sl IH]; simpl; [reflexivity|].
  intros H. apply andb_true_iff in H. destruct H as [Hc H].
  rewrite (@slash_not_space c Hc), (IH H). reflexivity.
Qed.

Lemma strip_fixed_lstrip (t : str) : strip t = t -> lstrip_with isspace t = t.
Proof.
  intros H. destruct t as [|c t]; [reflexivity|].
  apply lstrip_with_keeps. apply (@strip_head (c :: t) c t H).
Qed.

(** Trailing slashes do not disturb a trimmed address. *)
Lemma strip_trailing_slashes (t sl : str) :
  strip t = t -> all_slashes sl = true -> strip (t ++ sl) = t ++ sl.
Proof.
  intros Ht Hsl. pose proof (@slashes_not_spaces sl Hsl) as Hn.
  pose proof (@strip_fixed_lstrip t Ht) as Hl.
  assert (Hr : rstrip_with isspace t = t).
  { unfold strip in Ht. rewrite Hl in Ht. exact Ht. }
  unfold strip.
  assert (E : lstrip_with isspace (t ++ sl) = t ++ sl).
  { destruct t as [|c t].
    - simpl. destruct sl as [|x sl]; [reflexivity|].
      apply lstrip_with_keeps. simpl in Hn. apply andb_true_iff in Hn.
      destruct Hn as [Hx _]. destruct (isspace x); [discriminate|reflexivity].
    - simpl app. apply lstrip_with_keeps.
      apply (@strip_head (c :: t) c t Ht). }
  rewrite E, rstrip_with_app, (@rstrip_with_none isspace sl Hn).
  destruct sl; [rewrite app_nil_r; exact Hr|reflexivity].
Qed.

(** X14. Trailing slashes after a trimmed address do not matter, as long as
    they do not complete a scheme prefix: the address with any number of
    slashes appended has the base URL of the address itself. *)
Theorem base_url_ignores_trailing_slashes (cfg : WhisplayIMConfig.t)
  (sl : str) :
  let t := WhisplayIMConfig.ip cfg in
  strip t = t ->
  all_slashes sl = true ->
  has_scheme (t ++ sl) = has_scheme t ->
  WhisplayIMConfig.base_url (with_ip cfg (t ++ sl))
  = WhisplayIMConfig.base_url cfg.
Proof.
  intros t Ht Hsl Hs. unfold WhisplayIMConfig.base_url, with_ip.
  simpl WhisplayIMConfig.ip. fold t.
  rewrite (@strip_trailing_slashes t sl Ht Hsl), Ht.
  fold (has_scheme (t ++ sl)). fold (has_scheme t). rewrite Hs.
  assert (E : rstrip (t ++ sl) (lit "/") = rstrip t (lit "/"))
    by (apply rstrip_with_app_nil, Hsl).
  rewrite E. reflexivity.
Qed.

Lemma base_url_ignores_trailing_slashes_witness :
  WhisplayIMConfig.base_url
    (with_ip (config_of "10.0.0.5:8080") (lit "10.0.0.5:8080" ++ lit "//"))
  = WhisplayIMConfig.base_url (config_of "10.0.0.5:8080")
  /\ WhisplayIMConfig.base_url
       (with_ip (config_of "https://host") (lit "https://host" ++ lit "/"))
     = WhisplayIMConfig.base_url (config_of "https://host").
Proof.
  split.
  - apply (@base_url_ignores_trailing_slashes (config_of "10.0.0.5:8080")
             (lit "//")); reflexivity.
  - apply (@base_url_ignores_trailing_slashes (config_of "https://host")
             (lit "/")); reflexivity.
Defined.

(* ===================================================================== *)
(** ** Further properties: the posted text *)
(* ===================================================================== *)

Lemma hex_digit_printable (n : N) : printable (hex_digit n) = true.
Proof.
  unfold printable, hex_digit. destruct (N.ltb_spec n 10); apply N.leb_le; lia.
Qed.

Lemma escape_char_printable (c : char) :
  forallb printable (escape_char c) = true.
Proof.
  unfold escape_char, escape_named.
  repeat match goal with
         | |- context [(c =? ?k)%N] => destruct (c =? k)%N; [reflexivity|]
         end.
  destruct (N.ltb_spec c 0x20).
  - unfold u_escape. simpl. rewrite !hex_digit_printable. reflexivity.
  - simpl. rewrite andb_true_r. apply N.leb_le. exact H.
Qed.

Lemma encode_basestring_printable (s : str) :
  forallb printable (encode_basestring false s) = true.
Proof.
  unfold encode_basestring. rewrite !forallb_app. simpl.
  rewrite andb_true_r. induction s as [|c s IH]; simpl; [reflexivity|].
  rewrite forallb_app, escape_char_printable, IH. reflexivity.
Qed.

Lemma join_items_printable (items : list str) :
  forallb (forallb printable) items = true ->
  forallb printable (join_items items) = true.
Proof.
  induction items as [|x items IH]; [reflexivity|]. intros H.
  simpl in H. apply andb_true_iff in H. destruct H as [Hx H].
  destruct items as [|y items]; [exact Hx|].
  change (join_items (x :: y :: items))
    with (x ++ lit ", " ++ join_items (y :: items)).
  rewrite !forallb_app, Hx, (IH H). reflexivity.
Qed.

Lemma json_dumps_printable (obj : dict str) :
  forallb printable (json_dumps obj false) = true.
Proof.
  unfold json_dumps. rewrite !forallb_app.
  rewrite join_items_printable; [reflexivity|].
  induction obj as [|[k v] obj IH]; [reflexivity|].
  cbn [map forallb fst snd].
  rewrite !forallb_app, !encode_basestring_printable, IH. reflexivity.
Qed.

(** X15. The text [send] posts never contains a raw control character
    (below U+0020): line breaks, tabs and the like in the reply or the emoji
    leave as JSON escapes, so the body is always a single line. *)
Theorem send_body_has_no_control_character (self : WhisplayIMChannel.t)
  (reply : str) (emoji : option str) :
  exists req body,
    snd (send reply emoji self) = after_sending self req
    /\ data req = Some body
    /\ Forall (fun c => (0x20 <= c)%N) body.
Proof.
  exists (send_request self reply emoji),
         (json_dumps (reply_body reply emoji) false).
  split; [apply send_state|]. split; [reflexivity|].
  apply Forall_forall. intros c Hc.
  pose proof (json_dumps_printable (reply_body reply emoji)) as H.
  rewrite forallb_forall in H. apply N.leb_le. apply (H c Hc).
Qed.
